(** * humafiber: the Huma adapter for Fiber v3

    A shallow embedding of [humafiber.go] and the properties of its
    request/response wrapper, value-bridge context, route registration and
    [ServeHTTP] bridge.

    Go values are modelled as follows.
    - [string] is [string]; [[]byte] is [list byte]; [int] is [Z].
    - An interface value or a pointer that may be nil is an [option], or an
      inductive type with a nil constructor.
    - A panic is the [Panic] outcome of [result].
    - The native Fiber context is mutable and shared with the engine: the
      wrapper holds a reference to it ([fiber_Ctx]) and every method that
      touches it takes and returns its state ([DefaultCtx]). *)

From Stdlib Require Import ZArith String Ascii Strings.Byte List Lia.
From stdpp Require Import base option list strings countable gmap fin_maps.

Open Scope string_scope.
Open Scope list_scope.
Open Scope Z_scope.

(** ** Outcomes of Go calls *)

Inductive error : Type :=
| errors_New (msg : string).

Inductive panic : Type :=
| nil_dereference            (* runtime error: invalid memory address or nil pointer dereference *)
| panic_string (msg : string) (* panic("...") *)
| panic_error (e : error).    (* panic(err) *)

Inductive result (A : Type) : Type :=
| Ok (a : A)
| Panic (p : panic).

Arguments Ok {A} a.
Arguments Panic {A} p.

Definition bind {A B : Type} (m : result A) (f : A -> result B) : result B :=
  match m with
  | Ok a => f a
  | Panic p => Panic p
  end.

Notation "x <- m ;; k" := (bind m (fun x => k))
  (at level 100, m at next level, right associativity,
   format "x  <-  m  ;;  '/' k").

(** ** Dynamic values of type [any]

    The keys and values of the native store and of [context.Context].
    Only comparable dynamic types occur as keys ([context.WithValue] requires
    a comparable key), so [==] on two [any] values is decidable equality:
    same dynamic type and same value. *)

Inductive any : Type :=
| any_nil                       (* the nil interface value *)
| any_int (n : Z)
| any_string (s : string)
| any_bool (b : bool)
| any_ptr (addr : N).           (* a pointer, compared by identity *)

#[global] Instance any_eq_dec : EqDecision any.
Proof. solve_decision. Defined.

Definition any_encode (x : any) : unit + Z + string + bool + N :=
  match x with
  | any_nil => inl (inl (inl (inl tt)))
  | any_int n => inl (inl (inl (inr n)))
  | any_string s => inl (inl (inr s))
  | any_bool b => inl (inr b)
  | any_ptr a => inr a
  end.

Definition any_decode (x : unit + Z + string + bool + N) : any :=
  match x with
  | inl (inl (inl (inl _))) => any_nil
  | inl (inl (inl (inr n))) => any_int n
  | inl (inl (inr s)) => any_string s
  | inl (inr b) => any_bool b
  | inr a => any_ptr a
  end.

#[global] Instance any_countable : Countable any.
Proof.
  apply (inj_countable' any_encode any_decode).
  intros []; reflexivity.
Defined.

(** ** context.Context

    An implementation of [context.Context] is represented by its [Value]
    method; the other methods of the interface are promoted from the
    embedded context unchanged and play no part here. *)

Definition context_Context : Type := any -> any.

(** [context.Background()]: its [Value] returns nil for every key. *)
Definition context_Background : context_Context := fun _ => any_nil.

(** [context.WithValue(parent, key, val)]. *)
Definition context_WithValue (parent : context_Context) (key val : any)
  : context_Context :=
  fun k => if decide (key = k) then val else parent k.

(** ** The value-bridge context *)

Record contextWrapperValue : Type := {
  Key : any;
  Value : any
}.

Record contextWrapper : Type := {
  values : list contextWrapperValue;
  Context : context_Context
}.

Module contextWrapper.

(** The [for _, pair := range c.values] loop of [Value]: the first pair
    whose key equals [key] decides. *)
Fixpoint scan (vs : list contextWrapperValue) (key : any) : any :=
  match vs with
  | [] => any_nil
  | p :: rest => if decide (Key p = key) then Value p else scan rest key
  end.

(** [func (c *contextWrapper) Value(key any) any] *)
Definition Value (c : contextWrapper) (key : any) : any :=
  let raw := Context c key in
  if decide (raw <> any_nil) then raw
  else scan (values c) key.

End contextWrapper.

(** ** Readers

    [io.Reader] values that [BodyReader] can return: nil, the engine's live
    request body stream, or a [*bytes.Reader] with its slice [s] and read
    index [i]. *)

Inductive io_Reader : Type :=
| nil_Reader
| engine_stream (id : N)
| bytes_Reader (s : list byte) (i : nat).

Definition io_EOF : error := errors_New "EOF".

Module bytes.

(** [bytes.NewReader(b)] *)
Definition NewReader (b : list byte) : io_Reader := bytes_Reader b 0.

(** [func (r *Reader) Read(b []byte) (n int, err error)] with [len(b) = n]:
    the bytes copied into [b], the error, and the new read index. *)
Definition Read (s : list byte) (i : nat) (n : nat)
  : list byte * option error * nat :=
  if decide (length s <= i)%nat then ([], Some io_EOF, i)
  else
    let chunk := take n (drop i s) in
    (chunk, None, (i + length chunk)%nat).

(** A read pass: one [Read] per buffer length in [bufs], stopping at the
    first error. Returns the bytes read, whether [io.EOF] was reached, and
    the final read index. *)
Fixpoint read_pass (bufs : list nat) (s : list byte) (i : nat)
  : list byte * bool * nat :=
  match bufs with
  | [] => ([], false, i)
  | n :: bufs' =>
      match Read s i n with
      | (chunk, Some _, i') => (chunk, true, i')
      | (chunk, None, i') =>
          let '(more, eof, i'') := read_pass bufs' s i' in
          (chunk ++ more, eof, i'')
      end
  end.

End bytes.

(** ** Library values the wrapper hands out *)

(** [url.URL] *)
Record url_URL : Type := {
  Scheme : string;
  Host : string;
  URL_Path : string;
  RawQuery : string;
  Fragment : string
}.

(** The zero value [url.URL{}]. *)
Definition url_URL_zero : url_URL :=
  {| Scheme := ""; Host := ""; URL_Path := ""; RawQuery := ""; Fragment := "" |}.

(** [tls.ConnectionState] *)
Record tls_ConnectionState : Type := {
  Version : Z;
  HandshakeComplete : bool;
  DidResume : bool;
  CipherSuite : Z;
  NegotiatedProtocol : string;
  ServerName : string;
  PeerCertificates : list (list byte)
}.

(** The zero value [tls.ConnectionState{}]. *)
Definition tls_ConnectionState_zero : tls_ConnectionState :=
  {| Version := 0; HandshakeComplete := false; DidResume := false;
     CipherSuite := 0; NegotiatedProtocol := ""; ServerName := "";
     PeerCertificates := [] |}.

(** [huma.ProtoVersion] *)
Record huma_ProtoVersion : Type := {
  Proto : string;
  ProtoMajor : Z;
  ProtoMinor : Z
}.

(** [huma.Operation]: the fields the adapter reads. *)
Record huma_Operation : Type := {
  Method : string;
  Path : string
}.

(** ** The native Fiber context *)

(** A [fiber.Ctx] interface value: nil, or a reference to the pooled native
    context of the request in flight. *)
Inductive fiber_Ctx : Type :=
| nil_Ctx
| ctx_ref (id : N).

(** The state behind a [fiber.Ctx] reference, as far as the adapter reads or
    writes it. *)
Record DefaultCtx : Type := {
  RequestURI : string;            (* Request().RequestURI() *)
  Protocol : string;              (* Protocol() *)
  StreamRequestBody : bool;       (* App().Server().StreamRequestBody *)
  RequestBodyStream : option N;   (* the live body stream of the request, if any *)
  BodyRaw : list byte;            (* BodyRaw() *)
  UserValues : gmap any any;      (* the per-request store behind Locals *)
  ResponseStatusCode : Z          (* set by Status(code) *)
}.

(** [fiber.Ctx.Status(code)]: sets the status code of the response. *)
Definition Ctx_Status (code : Z) (s : DefaultCtx) : DefaultCtx :=
  {| RequestURI := RequestURI s; Protocol := Protocol s;
     StreamRequestBody := StreamRequestBody s;
     RequestBodyStream := RequestBodyStream s;
     BodyRaw := BodyRaw s; UserValues := UserValues s;
     ResponseStatusCode := code |}.

(** [fiber.Ctx.Request().BodyStream()]: the engine's stream as an
    [io.Reader], nil when the request has none. *)
Definition Ctx_BodyStream (s : DefaultCtx) : io_Reader :=
  match RequestBodyStream s with
  | Some id => engine_stream id
  | None => nil_Reader
  end.

(** A method call on a [fiber.Ctx]: calling through a nil interface panics. *)
Definition on_ctx {A : Type} (c : fiber_Ctx) (k : result A) : result A :=
  match c with
  | nil_Ctx => Panic nil_dereference
  | ctx_ref _ => k
  end.

(** ** The request/response wrapper *)

Record fiberWrapper : Type := {
  op : huma_Operation;
  status : Z;
  orig : fiber_Ctx;
  ctx : context_Context
}.

(** A [huma.Context] interface value: nil, a [*fiberWrapper], or a context
    implemented by some other adapter. *)
Inductive huma_Context : Type :=
| nil_Context
| humafiber_Context (c : fiberWrapper)
| foreign_Context (adapter : string).

Module fiberWrapper.

(** [func (c *fiberWrapper) Unwrap() fiber.Ctx] *)
Definition Unwrap (c : fiberWrapper) : fiber_Ctx := orig c.

(** [func (c *fiberWrapper) Operation() *huma.Operation] *)
Definition Operation (c : fiberWrapper) : huma_Operation := op c.

(** [func (c *fiberWrapper) Context() context.Context] *)
Definition Context (c : fiberWrapper) : context_Context := ctx c.

Section URL.
(** [url.Parse] of the standard library: a [*url.URL], nil on failure,
    and the error. *)
Variable url_Parse : string -> option url_URL * option error.

(** [func (c *fiberWrapper) URL() url.URL]: the error is discarded and
    the pointer dereferenced. *)
Definition URL (c : fiberWrapper) (s : DefaultCtx) : result url_URL :=
  on_ctx (orig c)
    (let '(u, _) := url_Parse (RequestURI s) in
     match u with
     | Some u' => Ok u'
     | None => Panic nil_dereference
     end).
End URL.

(** [func (c *fiberWrapper) BodyReader() io.Reader] *)
Definition BodyReader (c : fiberWrapper) (s : DefaultCtx) : result io_Reader :=
  let orig := orig c in
  on_ctx orig
    (if StreamRequestBody s then
       (* Streaming is enabled, so send the reader. *)
       Ok (Ctx_BodyStream s)
     else Ok (bytes.NewReader (BodyRaw s))).

(** [func (c *fiberWrapper) SetStatus(code int)]: returns the updated
    wrapper and native context. *)
Definition SetStatus (code : Z) (c : fiberWrapper) (s : DefaultCtx)
  : result (fiberWrapper * DefaultCtx) :=
  let orig := orig c in
  let c := {| op := op c; status := code; orig := orig; ctx := ctx c |} in
  on_ctx orig (Ok (c, Ctx_Status code s)).

(** [func (c *fiberWrapper) Status() int] *)
Definition Status (c : fiberWrapper) : Z := status c.

(** [func (c *fiberWrapper) TLS() *tls.ConnectionState] *)
Definition TLS (c : fiberWrapper) (s : DefaultCtx)
  : result (option tls_ConnectionState) :=
  on_ctx (orig c)
    (if decide (Protocol s = "https") then Ok (Some tls_ConnectionState_zero)
     else Ok None).

(** [func (c *fiberWrapper) Version() huma.ProtoVersion] *)
Definition Version (c : fiberWrapper) (s : DefaultCtx)
  : result huma_ProtoVersion :=
  on_ctx (orig c)
    (Ok {| Proto := Protocol s; ProtoMajor := 0; ProtoMinor := 0 |}).

(** A run of [SetStatus] calls, one per code, in order. *)
Fixpoint SetStatus_all (codes : list Z) (c : fiberWrapper) (s : DefaultCtx)
  : result (fiberWrapper * DefaultCtx) :=
  match codes with
  | [] => Ok (c, s)
  | code :: codes' =>
      cs <- SetStatus code c s ;;
      SetStatus_all codes' (fst cs) (snd cs)
  end.

End fiberWrapper.

(** [func Unwrap(ctx huma.Context) fiber.Ctx] *)
Definition Unwrap (ctx : huma_Context) : result fiber_Ctx :=
  match ctx with
  | humafiber_Context c => Ok (fiberWrapper.Unwrap c)
  | _ => Panic (panic_string "not a humafiber context")
  end.

(** ** strings.ReplaceAll

    [strings.ReplaceAll(s, old, new)] for a non-empty [old], which is how the
    adapter calls it: the non-overlapping occurrences of [old], found from
    the left, are replaced by [new]. [skip] counts the bytes of a matched
    occurrence still to be dropped. *)

Fixpoint replace_from (skip : nat) (s old new : string) : string :=
  match s with
  | EmptyString => EmptyString
  | String b s' =>
      match skip with
      | S k => replace_from k s' old new
      | O =>
          if String.prefix old s
          then String.append new (replace_from (String.length old - 1) s' old new)
          else String b (replace_from 0 s' old new)
      end
  end.

Definition strings_ReplaceAll (s old new : string) : string :=
  replace_from 0 s old new.

(** ** net/http values used by the bridge *)

Abbreviation http_Header := (gmap string (list string)).

Record http_Request : Type := {
  Request_Method : string;
  Request_URI : string;
  Request_Body : list byte
}.

(** [http.Response]. [Body] is nil or a stream; a stream is given by the
    chunks its successive reads deliver before [io.EOF]. *)
Record http_Response : Type := {
  StatusCode : Z;
  Header : http_Header;
  Body : option (list (list byte))
}.

(** What [ServeHTTP] does to its response writer and to the response body,
    in the order it does it. [http.ResponseWriter] is an interface, so a
    call on it is recorded rather than interpreted. *)
Inductive event : Type :=
| ev_HeaderAdd (key value : string)   (* w.Header().Add(key, value) *)
| ev_WriteHeader (statusCode : Z)     (* w.WriteHeader(statusCode) *)
| ev_Write (b : list byte)            (* w.Write(b), from io.Copy *)
| ev_BodyClose.                       (* resp.Body.Close() *)

(** Is the event a call on the response writer? *)
Definition on_writer (e : event) : bool :=
  match e with
  | ev_BodyClose => false
  | _ => true
  end.

(** Is the event [Header().Add(k, _)]? *)
Definition adds_to (k : string) (e : event) : bool :=
  match e with
  | ev_HeaderAdd k' _ => bool_decide (k' = k)
  | _ => false
  end.

(** ** The engine *)

(** [fiber.Handler]: called with the native context, returns an error to
    the engine, or panics. *)
Definition fiber_Handler : Type :=
  fiber_Ctx -> DefaultCtx -> result (option error * DefaultCtx).

(** One registration made through [router.Add]. *)
Record Route : Type := {
  route_methods : list string;
  route_path : string;
  route_handler : fiber_Handler
}.

(** [router.Add(methods, path, handler)] on the routing table. *)
Definition router_Add (methods : list string) (path : string)
    (handler : fiber_Handler) (table : list Route) : list Route :=
  table ++ [ {| route_methods := methods; route_path := path;
                route_handler := handler |} ].

(** [*fiber.App] as the bridge uses it: [Test] runs a request in process. *)
Record fiber_App : Type := {
  Test : http_Request -> option http_Response * option error
}.

(** [tester] is the application that [ServeHTTP] runs requests in, and
    [router] the routing table that [Handle] adds to. [New] puts the same
    application behind both, so what [Test] runs depends on the routes added;
    that dependency is the engine's and is not described here: [Test] is
    whatever the application does at the time of the call. *)
Record fiberAdapter : Type := {
  tester : fiber_App;
  router : list Route
}.

(** The operation handler that Huma passes to [Handle]: it works on the
    [huma.Context] it is given and on the native context behind it. *)
Definition huma_Handler : Type :=
  huma_Context -> DefaultCtx -> result DefaultCtx.

(** What Fiber v3's [Locals] calls a callback with. Its signature is
    [Locals(key any, value ...any) any]: given a key and no value it returns
    the value stored under the key and calls nothing. A func handed to it as
    the only argument is that key, so it is looked up and never called: the
    calls it receives are none, whatever is in the store. *)
Definition Fiber_Locals : gmap any any -> list (any * any) := fun _ => [].

Module fiberAdapter.

Section Handle.
(** The calls, as key and value in order, that [c.Locals] makes on the
    callback it is handed, given the store. The definitions below are for
    any engine; the engine in use is [Fiber_Locals]. *)
Variable Locals_visit : gmap any any -> list (any * any).

(** The callback passed to [c.Locals]: [values = append(values, ...)]. *)
Definition snapshot (s : DefaultCtx) : list contextWrapperValue :=
  foldl (fun values kv => values ++ [ {| Key := fst kv; Value := snd kv |} ])
        [] (Locals_visit (UserValues s)).

(** The [&fiberWrapper{...}] literal of the route handler; the [status]
    field is left out there and so holds the zero value. *)
Definition new_wrapper (op : huma_Operation) (c : fiber_Ctx)
    (values : list contextWrapperValue) : fiberWrapper :=
  {| op := op;
     status := 0;
     orig := c;
     ctx := contextWrapper.Value
              {| values := values; Context := context_Background |} |}.

(** The [func(c fiber.Ctx) error] closure registered by [Handle]. *)
Definition route_closure (op : huma_Operation) (handler : huma_Handler)
  : fiber_Handler :=
  fun c s =>
    on_ctx c
      (let values := snapshot s in
       s' <- handler (humafiber_Context (new_wrapper op c values)) s ;;
       Ok (None, s')).

(** [func (a *fiberAdapter) Handle(op *huma.Operation, handler func(huma.Context))] *)
Definition Handle (a : fiberAdapter) (op : huma_Operation)
    (handler : huma_Handler) : fiberAdapter :=
  (* Convert {param} to :param *)
  let path := Path op in
  let path := strings_ReplaceAll path "{" ":" in
  let path := strings_ReplaceAll path "}" "" in
  {| tester := tester a;
     router := router_Add [Method op] path (route_closure op handler)
                 (router a) |}.
End Handle.

Section ServeHTTP.
(** The order in which [range] visits the entries of a header map. *)
Variable range_Header : http_Header -> list (string * list string).

(** The two nested [range] loops: [h.Add(k, v[item])]. *)
Definition copy_header (h : http_Header) : list event :=
  flat_map (fun kv => map (ev_HeaderAdd (fst kv)) (snd kv))
           (range_Header h).

(** [func (a *fiberAdapter) ServeHTTP(w http.ResponseWriter, r *http.Request)]:
    the events in order, and whether the call returns or panics. *)
Definition ServeHTTP (a : fiberAdapter) (r : http_Request)
  : list event * result unit :=
  let '(resp, err) := Test (tester a) r in
  let deferred :=
    match resp with
    | Some rs => match Body rs with Some _ => [ev_BodyClose] | None => [] end
    | None => []
    end in
  match err with
  | Some e => (deferred, Panic (panic_error e))
  | None =>
      match resp with
      | None => (deferred, Panic nil_dereference)
      | Some rs =>
          let copied := copy_header (Header rs) in
          let wrote := [ev_WriteHeader (StatusCode rs)] in
          match Body rs with
          | None => (copied ++ wrote ++ deferred, Panic nil_dereference)
          | Some chunks =>
              (copied ++ wrote ++ map ev_Write chunks ++ deferred, Ok tt)
          end
      end
  end.
End ServeHTTP.

End fiberAdapter.

(** The valid HTTP status range. *)
Definition valid_status (code : Z) : Prop := 100 <= code <= 599.

(** ** net/url *)

Definition ishex (c : ascii) : bool :=
  let n := nat_of_ascii c in
  ((48 <=? n) && (n <=? 57) || (97 <=? n) && (n <=? 102)
   || (65 <=? n) && (n <=? 70))%nat.

Definition unhex (c : ascii) : nat :=
  let n := nat_of_ascii c in
  if ((48 <=? n) && (n <=? 57))%nat then (n - 48)%nat
  else if ((97 <=? n) && (n <=? 102))%nat then (n - 97 + 10)%nat
  else if ((65 <=? n) && (n <=? 70))%nat then (n - 65 + 10)%nat
  else 0%nat.

(** [stringContainsCTLByte] of net/url: a byte below 0x20, or 0x7f. *)
Fixpoint stringContainsCTLByte (s : string) : bool :=
  match s with
  | EmptyString => false
  | String b rest =>
      let n := nat_of_ascii b in
      ((n <? 32) || (n =? 127))%nat || stringContainsCTLByte rest
  end.

(** [unescape(s, encodePath)] of net/url, the same for [encodeFragment]: a
    ["%"] must be followed by two hexadecimal digits and stands for that
    byte; anything else is kept. [None] is the [EscapeError]. *)
Fixpoint unescape (s : string) : option string :=
  match s with
  | EmptyString => Some EmptyString
  | String "%" (String a (String b rest)) =>
      if ishex a && ishex b
      then option_map (String (ascii_of_nat (16 * unhex a + unhex b)))
                      (unescape rest)
      else None
  | String "%" _ => None
  | String b rest => option_map (String b) (unescape rest)
  end.

(** [strings.Cut(s, sep)] for a one-byte [sep]: the text before the first
    [sep] and the text after it, or [s] and the empty string. *)
Fixpoint strings_Cut (s : string) (sep : ascii) : string * string :=
  match s with
  | EmptyString => (EmptyString, EmptyString)
  | String b rest =>
      if Ascii.eqb b sep then (EmptyString, rest)
      else let '(before, after) := strings_Cut rest sep in
           (String b before, after)
  end.

(** Does the string start with one ["/"] and not with ["//"]? That is the
    form of a request URI made of a path, a query and a fragment. *)
Definition origin_form (rawURL : string) : bool :=
  match rawURL with
  | String "/" (String "/" _) => false
  | String "/" _ => true
  | _ => false
  end.

(** [url.Parse] of net/url on the fields of [url_URL]. On a string in
    [origin_form] it follows the library: the fragment is cut off at the
    first ["#"]; a control byte in what is left is rejected; there is no
    scheme and no authority; the query is cut off at the first ["?"] and
    kept raw; the path and the fragment are unescaped, and an invalid escape
    in either is rejected. A rejection returns a nil [*url.URL]. On other
    strings (schemes, authorities, relative references) the library's
    parser is [other]. *)
Definition url_Parse_origin_form
    (other : string -> option url_URL * option error) (rawURL : string)
  : option url_URL * option error :=
  if origin_form rawURL then
    let '(u, frag) := strings_Cut rawURL "#" in
    if stringContainsCTLByte u
    then (None, Some (errors_New "net/url: invalid control character in URL"))
    else
      let '(rest, query) := strings_Cut u "?" in
      match unescape rest, unescape frag with
      | Some path, Some fragment =>
          (Some {| Scheme := ""; Host := ""; URL_Path := path;
                   RawQuery := query; Fragment := fragment |}, None)
      | _, _ => (None, Some (errors_New "invalid URL escape"))
      end
  else other rawURL.

(** [Request().SetRequestURI(uri)]: [Request().RequestURI()] is [uri] as
    given, until the engine parses the URI again. (For a request read from
    the connection the engine has parsed the URI, and [RequestURI] holds its
    re-encoding of it: a request line with the target ["/%zz"] is held as
    ["/%25zz"].) *)
Definition Request_SetRequestURI (uri : string) (s : DefaultCtx) : DefaultCtx :=
  {| RequestURI := uri; Protocol := Protocol s;
     StreamRequestBody := StreamRequestBody s;
     RequestBodyStream := RequestBodyStream s;
     BodyRaw := BodyRaw s; UserValues := UserValues s;
     ResponseStatusCode := ResponseStatusCode s |}.

(** ** Concrete values to run the definitions on *)

(** A native context whose [Request().RequestURI()] is [uri], with [locals]
    in its store. *)
Definition sample_ctx (uri proto : string) (streaming : bool)
    (body : list byte) (locals : gmap any any) : DefaultCtx :=
  {| RequestURI := uri; Protocol := proto; StreamRequestBody := streaming;
     RequestBodyStream := if streaming then Some 1%N else None;
     BodyRaw := body; UserValues := locals; ResponseStatusCode := 200 |}.

Definition sample_op : huma_Operation :=
  {| Method := "GET"; Path := "/items/{id}" |}.

(** A response with a repeated header, and an application whose in-process
    run returns it. *)
Definition sample_response : http_Response :=
  {| StatusCode := 200;
     Header := <["X-Test" := ["a"; "b"]]>
                 (<["Content-Type" := ["text/plain"]]> ∅);
     Body := Some [[x6f; x6b]%byte] |}.

Definition sample_app : fiber_App :=
  {| Test := fun _ => (Some sample_response, None) |}.

(** An application whose in-process run fails. *)
Definition failing_app : fiber_App :=
  {| Test := fun _ => (None, Some (errors_New "test: timeout")) |}.

Definition sample_request : http_Request :=
  {| Request_Method := "GET"; Request_URI := "/items/42"; Request_Body := [] |}.

(** ** The path rewrite as the documentation words it

    [{name}] becomes [:name]: every ["{"] becomes [":"] and every ["}"] is
    dropped. Compared with the two [strings.ReplaceAll] calls of [Handle]
    below. *)

Fixpoint colon_params (template : string) : string :=
  match template with
  | EmptyString => EmptyString
  | String "{" rest => String ":" (colon_params rest)
  | String "}" rest => colon_params rest
  | String b rest => String b (colon_params rest)
  end.

(** Does the template hold a brace? *)
Fixpoint has_brace (template : string) : bool :=
  match template with
  | EmptyString => false
  | String "{" _ => true
  | String "}" _ => true
  | String _ rest => has_brace rest
  end.

(** * Properties *)

(** ** Dispatch *)

(** What the route closure does with a non-nil native context: it hands the
    operation handler a [*fiberWrapper] built around that context. *)
Lemma route_closure_dispatch visit op (handler : huma_Handler) c id s :
  c = ctx_ref id ->
  fiberAdapter.route_closure visit op handler c s
  = (s' <- handler (humafiber_Context
                      (fiberAdapter.new_wrapper op c
                         (fiberAdapter.snapshot visit s))) s ;;
     Ok (None, s')).
Proof. intros ->. reflexivity. Qed.

(** ** The value-bridge context *)

Lemma foldl_snoc_map {A B : Type} (f : A -> B) (l : list A) (acc : list B) :
  foldl (fun values x => values ++ [f x]) acc l = acc ++ map f l.
Proof.
  revert acc. induction l as [|x l IH]; intros acc; simpl.
  - now rewrite app_nil_r.
  - rewrite IH, <- app_assoc. reflexivity.
Qed.

Lemma snapshot_map visit (s : DefaultCtx) :
  fiberAdapter.snapshot visit s
  = map (fun kv => {| Key := fst kv; Value := snd kv |}) (visit (UserValues s)).
Proof. unfold fiberAdapter.snapshot. now rewrite foldl_snoc_map. Qed.

(** The scan returns the value of the first pair with the key. *)
Lemma scan_first (before after : list contextWrapperValue) p :
  (forall q, In q before -> Key q <> Key p) ->
  contextWrapper.scan (before ++ p :: after) (Key p) = Value p.
Proof.
  induction before as [|q before IH]; intros Hbefore; simpl.
  - destruct (decide (Key p = Key p)); congruence.
  - destruct (decide (Key q = Key p)) as [e|_].
    + exfalso. apply (Hbefore q); [now left | exact e].
    + apply IH. intros q' Hq'. apply Hbefore. now right.
Qed.

Lemma Value_embedded_hit (c : contextWrapper) key :
  Context c key <> any_nil -> contextWrapper.Value c key = Context c key.
Proof.
  intros Hraw. unfold contextWrapper.Value.
  destruct (decide (Context c key <> any_nil)); [reflexivity | contradiction].
Qed.

Lemma Value_embedded_miss (c : contextWrapper) key :
  Context c key = any_nil ->
  contextWrapper.Value c key = contextWrapper.scan (values c) key.
Proof.
  intros Hraw. unfold contextWrapper.Value.
  destruct (decide (Context c key <> any_nil)); [contradiction | reflexivity].
Qed.

(** The context of a wrapper built by the route handler embeds
    [context.Background()], so a lookup is a lookup in the snapshot. *)
Lemma new_wrapper_Context visit op c (s : DefaultCtx) key :
  fiberWrapper.Context
    (fiberAdapter.new_wrapper op c (fiberAdapter.snapshot visit s)) key
  = contextWrapper.scan (fiberAdapter.snapshot visit s) key.
Proof.
  unfold fiberWrapper.Context, fiberAdapter.new_wrapper. cbn [ctx].
  now rewrite Value_embedded_miss.
Qed.

(** C1. The pairs of the native per-request store do not reach the
    value-bridge context. [c.Locals] is handed the callback as its only
    argument, takes it for a key and never calls it, so the list that the
    route closure collects is empty whatever the store holds, and the
    context of the wrapper handed to the operation handler returns nil for
    every key, the keys of the store included. *)
Theorem dispatched_Context_misses_store
    (op : huma_Operation) (handler : huma_Handler) (c : fiber_Ctx) (id : N)
    (s : DefaultCtx) :
  c = ctx_ref id ->
  let w := fiberAdapter.new_wrapper op c
             (fiberAdapter.snapshot Fiber_Locals s) in
  fiberAdapter.route_closure Fiber_Locals op handler c s
  = (s' <- handler (humafiber_Context w) s ;; Ok (None, s'))
  /\ fiberAdapter.snapshot Fiber_Locals s = []
  /\ (forall key, fiberWrapper.Context w key = any_nil).
Proof.
  intros Hc w. split; [|split].
  - now apply (route_closure_dispatch Fiber_Locals op handler c id s).
  - reflexivity.
  - intros key. unfold w. now rewrite new_wrapper_Context.
Qed.

Lemma dispatched_Context_misses_store_witness :
  let s := sample_ctx "/items/42" "http" false []
             (<[any_string "user" := any_int 7]> ∅) in
  let w := fiberAdapter.new_wrapper sample_op (ctx_ref 1)
             (fiberAdapter.snapshot Fiber_Locals s) in
  UserValues s !! any_string "user" = Some (any_int 7)
  /\ fiberWrapper.Context w (any_string "user") = any_nil.
Proof.
  intros s w. split; [reflexivity|].
  destruct (dispatched_Context_misses_store sample_op (fun _ s => Ok s)
              (ctx_ref 1) 1%N s eq_refl) as (_ & _ & Hnil).
  apply Hnil.
Defined.

(** ** The URL accessor *)

(** When the parser accepts the request URI, [URL] returns what it parsed. *)
Lemma URL_parsed url_Parse (c : fiberWrapper) (s : DefaultCtx) id u err :
  orig c = ctx_ref id ->
  url_Parse (RequestURI s) = (Some u, err) ->
  fiberWrapper.URL url_Parse c s = Ok u.
Proof.
  intros Horig Hparse. unfold fiberWrapper.URL.
  rewrite Horig, Hparse. reflexivity.
Qed.

(** C2. [URL] is not total: whenever [url.Parse] rejects the request URI, so
    that the [*url.URL] it returns is nil, [URL] dereferences that nil
    pointer and panics; no zero-value URL is returned. *)
Theorem URL_panics_on_rejected_URI
    (url_Parse : string -> option url_URL * option error)
    (c : fiberWrapper) (s : DefaultCtx) (id : N) :
  orig c = ctx_ref id ->
  fst (url_Parse (RequestURI s)) = None ->
  fiberWrapper.URL url_Parse c s = Panic nil_dereference
  /\ fiberWrapper.URL url_Parse c s <> Ok url_URL_zero.
Proof.
  intros Horig Hparse. unfold fiberWrapper.URL. rewrite Horig. simpl.
  destruct (url_Parse (RequestURI s)) as [u err]. simpl in Hparse.
  subst u. split; [reflexivity | discriminate].
Qed.

Lemma URL_panics_on_rejected_URI_witness :
  let other : string -> option url_URL * option error :=
    fun _ => (None, None) in
  let s := Request_SetRequestURI "/%zz"
             (sample_ctx "/items/42" "http" false [] ∅) in
  let c := fiberAdapter.new_wrapper sample_op (ctx_ref 1)
             (fiberAdapter.snapshot Fiber_Locals s) in
  fiberWrapper.URL (url_Parse_origin_form other) c s = Panic nil_dereference
  /\ fiberWrapper.URL (url_Parse_origin_form other) c s <> Ok url_URL_zero.
Proof.
  intros other s c.
  apply (URL_panics_on_rejected_URI (url_Parse_origin_form other) c s 1%N);
    reflexivity.
Defined.

(** The same target read from the connection is held re-encoded, and is
    parsed: [URL] returns, with the path unescaped. *)
Lemma URL_of_reencoded_URI (other : string -> option url_URL * option error) :
  let s := sample_ctx "/%25zz?page=2" "http" false [] ∅ in
  let c := fiberAdapter.new_wrapper sample_op (ctx_ref 1)
             (fiberAdapter.snapshot Fiber_Locals s) in
  fiberWrapper.URL (url_Parse_origin_form other) c s
  = Ok {| Scheme := ""; Host := ""; URL_Path := "/%zz"; RawQuery := "page=2";
          Fragment := "" |}.
Proof. reflexivity. Qed.

(** ** Route registration *)

Lemma prefix_open_brace b rest :
  String.prefix "{" (String b rest) = bool_decide (b = "{"%char).
Proof.
  cbn [String.prefix]. destruct (ascii_dec "{" b) as [<-|Hne].
  - rewrite bool_decide_eq_true_2 by reflexivity. now destruct rest.
  - rewrite bool_decide_eq_false_2 by congruence. reflexivity.
Qed.

Lemma prefix_close_brace b rest :
  String.prefix "}" (String b rest) = bool_decide (b = "}"%char).
Proof.
  cbn [String.prefix]. destruct (ascii_dec "}" b) as [<-|Hne].
  - rewrite bool_decide_eq_true_2 by reflexivity. now destruct rest.
  - rewrite bool_decide_eq_false_2 by congruence. reflexivity.
Qed.

Lemma colon_params_cons b rest :
  colon_params (String b rest)
  = if bool_decide (b = "{"%char) then String ":" (colon_params rest)
    else if bool_decide (b = "}"%char) then colon_params rest
         else String b (colon_params rest).
Proof. destruct b as [[] [] [] [] [] [] [] []]; reflexivity. Qed.

Lemma has_brace_cons b rest :
  has_brace (String b rest)
  = bool_decide (b = "{"%char) || bool_decide (b = "}"%char) || has_brace rest.
Proof. destruct b as [[] [] [] [] [] [] [] []]; reflexivity. Qed.

(** The two [ReplaceAll] calls of [Handle] compute [colon_params]. *)
Lemma ReplaceAll_colon_params (template : string) :
  strings_ReplaceAll (strings_ReplaceAll template "{" ":") "}" ""
  = colon_params template.
Proof.
  unfold strings_ReplaceAll.
  induction template as [|b rest IH]; [reflexivity|].
  rewrite colon_params_cons.
  cbn [replace_from]. rewrite prefix_open_brace.
  destruct (bool_decide (b = "{"%char)).
  - change (":" +:+ ?x) with (String ":" x).
    cbn [String.length Nat.sub replace_from].
    rewrite prefix_close_brace, bool_decide_eq_false_2 by discriminate.
    now rewrite IH.
  - cbn [replace_from]. rewrite prefix_close_brace.
    destruct (bool_decide (b = "}"%char)).
    + cbn [String.length Nat.sub]. change ("" +:+ ?x) with x. exact IH.
    + now rewrite IH.
Qed.

Lemma colon_params_no_brace (template : string) :
  has_brace template = false -> colon_params template = template.
Proof.
  induction template as [|b rest IH]; [reflexivity|].
  rewrite has_brace_cons, colon_params_cons.
  destruct (bool_decide (b = "{"%char)); [discriminate|].
  destruct (bool_decide (b = "}"%char)); [discriminate|].
  cbn [orb]. intros H. now rewrite IH.
Qed.

Lemma colon_params_app (s t : string) :
  colon_params (s +:+ t) = colon_params s +:+ colon_params t.
Proof.
  induction s as [|b rest IH]; [reflexivity|].
  change (String b rest +:+ t) with (String b (rest +:+ t)).
  rewrite !colon_params_cons, IH.
  destruct (bool_decide (b = "{"%char)); [reflexivity|].
  destruct (bool_decide (b = "}"%char)); reflexivity.
Qed.

(** C3. [Handle] adds exactly one route to the routing table: under the
    operation's method, with the route closure as its handler, and under the
    path obtained from the operation's template by turning every "{" into
    ":" and dropping every "}". A segment [{name}] thereby becomes [:name],
    and a template without braces is registered unchanged. *)
Theorem Handle_registers_colon_path
    (visit : gmap any any -> list (any * any)) (a : fiberAdapter)
    (op : huma_Operation) (handler : huma_Handler) :
  router (fiberAdapter.Handle visit a op handler)
  = router a ++
    [ {| route_methods := [Method op];
         route_path := colon_params (Path op);
         route_handler := fiberAdapter.route_closure visit op handler |} ]
  /\ (forall before name after,
        has_brace name = false ->
        colon_params (before +:+ "{" +:+ name +:+ "}" +:+ after)
        = colon_params before +:+ ":" +:+ name +:+ colon_params after)
  /\ (has_brace (Path op) = false -> colon_params (Path op) = Path op).
Proof.
  split; [|split].
  - unfold fiberAdapter.Handle, router_Add. cbn [router].
    now rewrite ReplaceAll_colon_params.
  - intros before name after Hname.
    rewrite !colon_params_app. cbn.
    now rewrite (colon_params_no_brace name Hname).
  - apply colon_params_no_brace.
Qed.

Lemma Handle_registers_colon_path_witness :
  let a := {| tester := {| Test := fun _ => (None, None) |}; router := [] |} in
  let handler : huma_Handler := fun _ s => Ok s in
  map (fun r => (route_methods r, route_path r))
      (router (fiberAdapter.Handle map_to_list a sample_op handler))
  = [(["GET"], "/items/:id")]
  /\ colon_params "/users/{id}/posts/{post}" = "/users/:id/posts/:post"
  /\ colon_params "/health" = "/health".
Proof.
  intros a handler.
  destruct (Handle_registers_colon_path map_to_list a sample_op handler)
    as (Hroute & Hsegment & _).
  split; [|split].
  - rewrite Hroute. reflexivity.
  - exact (Hsegment "/users/{id}/posts/" "post" "" eq_refl).
  - destruct (Handle_registers_colon_path map_to_list a
                {| Method := "GET"; Path := "/health" |} handler)
      as (_ & _ & Hhealth).
    exact (Hhealth eq_refl).
Defined.

(** ** Unwrap *)

(** C4. The context that the route closure hands to the operation handler
    is a [*fiberWrapper] around the engine's native context, and [Unwrap]
    returns that native context, which is not nil. On any [huma.Context]
    that is not a [*fiberWrapper], [Unwrap] panics with "not a humafiber
    context"; it does not return nil. *)
Theorem Unwrap_own_or_panic :
  (forall visit op (handler : huma_Handler) c id s,
      c = ctx_ref id ->
      let hc := humafiber_Context
                  (fiberAdapter.new_wrapper op c
                     (fiberAdapter.snapshot visit s)) in
      fiberAdapter.route_closure visit op handler c s
      = (s' <- handler hc s ;; Ok (None, s'))
      /\ Unwrap hc = Ok c
      /\ c <> nil_Ctx)
  /\ (forall hc, (forall w, hc <> humafiber_Context w) ->
                 Unwrap hc = Panic (panic_string "not a humafiber context")
                 /\ Unwrap hc <> Ok nil_Ctx).
Proof.
  split.
  - intros visit op handler c id s Hc hc. split; [|split].
    + now apply (route_closure_dispatch visit op handler c id s).
    + reflexivity.
    + rewrite Hc. discriminate.
  - intros hc Hforeign. destruct hc as [|w|adapter].
    + split; [reflexivity | discriminate].
    + now destruct (Hforeign w).
    + split; [reflexivity | discriminate].
Qed.

Lemma Unwrap_own_or_panic_witness :
  let s := sample_ctx "/items/42" "http" false [] ∅ in
  Unwrap (humafiber_Context
            (fiberAdapter.new_wrapper sample_op (ctx_ref 1)
               (fiberAdapter.snapshot map_to_list s)))
  = Ok (ctx_ref 1)
  /\ Unwrap (foreign_Context "humachi")
     = Panic (panic_string "not a humafiber context")
  /\ Unwrap nil_Context = Panic (panic_string "not a humafiber context").
Proof.
  intros s. destruct Unwrap_own_or_panic as (Hown & Hforeign).
  split; [|split].
  - apply (Hown map_to_list sample_op (fun _ s => Ok s) (ctx_ref 1) 1%N s
             eq_refl).
  - apply (Hforeign (foreign_Context "humachi")). discriminate.
  - apply (Hforeign nil_Context). discriminate.
Defined.

(** ** Status *)

Lemma SetStatus_all_app codes codes' (c : fiberWrapper) (s : DefaultCtx) :
  fiberWrapper.SetStatus_all (codes ++ codes') c s
  = (cs <- fiberWrapper.SetStatus_all codes c s ;;
     fiberWrapper.SetStatus_all codes' (fst cs) (snd cs)).
Proof.
  revert c s. induction codes as [|code codes IH]; intros c s; [reflexivity|].
  cbn [app fiberWrapper.SetStatus_all].
  destruct (fiberWrapper.SetStatus code c s) as [[c1 s1]|p]; [|reflexivity].
  cbn [bind fst snd]. apply IH.
Qed.

(** A run of [SetStatus] calls on a wrapper around a live native context
    returns, and leaves the wrapper around the same context. *)
Lemma SetStatus_all_returns codes (c : fiberWrapper) (s : DefaultCtx) id :
  orig c = ctx_ref id ->
  exists c' s', fiberWrapper.SetStatus_all codes c s = Ok (c', s')
                /\ orig c' = ctx_ref id.
Proof.
  revert c s. induction codes as [|code codes IH]; intros c s Horig.
  - exists c, s. now split.
  - cbn [fiberWrapper.SetStatus_all]. unfold fiberWrapper.SetStatus.
    rewrite Horig. cbn [on_ctx bind fst snd].
    apply IH. reflexivity.
Qed.

(** C5. After any run of [SetStatus] calls that ends with [SetStatus(code)],
    for a code in the valid HTTP status range, [Status()] on the same wrapper
    returns [code], and the native response holds [code] as well. *)
Theorem Status_after_SetStatus
    (codes : list Z) (code : Z) (c : fiberWrapper) (s : DefaultCtx) (id : N) :
  orig c = ctx_ref id ->
  valid_status code ->
  exists c' s',
    fiberWrapper.SetStatus_all (codes ++ [code]) c s = Ok (c', s')
    /\ fiberWrapper.Status c' = code
    /\ ResponseStatusCode s' = code
    /\ fiberWrapper.Unwrap c' = fiberWrapper.Unwrap c.
Proof.
  intros Horig _.
  destruct (SetStatus_all_returns codes c s id Horig)
    as (c1 & s1 & Hrun & Horig1).
  rewrite SetStatus_all_app, Hrun. cbn [bind fst snd].
  cbn [fiberWrapper.SetStatus_all]. unfold fiberWrapper.SetStatus.
  rewrite Horig1. cbn [on_ctx bind fst snd].
  eexists _, _. split; [reflexivity|].
  unfold fiberWrapper.Status, fiberWrapper.Unwrap. cbn.
  now rewrite Horig.
Qed.

Lemma Status_after_SetStatus_witness :
  let s := sample_ctx "/items/42" "http" false [] ∅ in
  let c := fiberAdapter.new_wrapper sample_op (ctx_ref 1)
             (fiberAdapter.snapshot map_to_list s) in
  exists c' s',
    fiberWrapper.SetStatus_all ([200; 500] ++ [404]) c s = Ok (c', s')
    /\ fiberWrapper.Status c' = 404
    /\ ResponseStatusCode s' = 404
    /\ fiberWrapper.Unwrap c' = fiberWrapper.Unwrap c.
Proof.
  intros s c.
  apply (Status_after_SetStatus [200; 500] 404 c s 1%N);
    [reflexivity | unfold valid_status; lia].
Defined.

(** ** The body reader *)

(** A [Read] into a non-empty buffer, short of the end, makes progress and
    stays within the slice. *)
Lemma Read_progress (s : list byte) (i n : nat) :
  (i < length s)%nat -> (0 < n)%nat ->
  exists chunk i',
    bytes.Read s i n = (chunk, None, i')
    /\ chunk ++ drop i' s = drop i s
    /\ (i < i' <= length s)%nat.
Proof.
  intros Hi Hn. unfold bytes.Read.
  destruct (decide (length s <= i)%nat) as [Hend|_]; [lia|].
  eexists _, _. split; [reflexivity|].
  rewrite length_take, length_drop. split.
  - destruct (decide (n <= length s - i)%nat) as [Hle|Hgt].
    + rewrite Nat.min_l by exact Hle.
      rewrite <- drop_drop. apply take_drop.
    + rewrite Nat.min_r by lia.
      rewrite take_ge by (rewrite length_drop; lia).
      rewrite (drop_ge s (i + (length s - i))) by lia. apply app_nil_r.
  - lia.
Qed.

(** At the end of the slice every [Read] returns no bytes and [io.EOF]. *)
Lemma Read_at_end (s : list byte) (n : nat) :
  bytes.Read s (length s) n = ([], Some io_EOF, length s).
Proof.
  unfold bytes.Read.
  destruct (decide (length s <= length s)%nat); [reflexivity | lia].
Qed.

(** A read pass with enough non-empty buffers reads the rest of the slice
    and reaches [io.EOF]. *)
Lemma read_pass_rest (bufs : list nat) (s : list byte) (i : nat) :
  Forall (fun n => (0 < n)%nat) bufs ->
  (i <= length s)%nat ->
  (length s - i < length bufs)%nat ->
  bytes.read_pass bufs s i = (drop i s, true, length s).
Proof.
  revert i. induction bufs as [|n bufs IH]; intros i Hpos Hi Hlen;
    cbn [length] in Hlen; [lia|].
  inversion Hpos as [|? ? Hn Hpos']; subst.
  cbn [bytes.read_pass].
  destruct (decide (i = length s)) as [->|Hne].
  - rewrite Read_at_end, drop_all. reflexivity.
  - destruct (Read_progress s i n) as (chunk & i' & -> & Hchunk & Hi');
      [lia | exact Hn |].
    rewrite (IH i') by (try exact Hpos'; lia).
    now rewrite Hchunk.
Qed.

(** C6. [BodyReader] returns the engine's live body stream exactly when the
    engine streams request bodies. Otherwise it returns a new
    [*bytes.Reader] over the buffered raw body, positioned at its start: a
    read pass over it yields exactly the raw body and ends in [io.EOF],
    after which every further read yields nothing. *)
Theorem BodyReader_by_mode (c : fiberWrapper) (s : DefaultCtx) (id : N) :
  orig c = ctx_ref id ->
  exists r,
    fiberWrapper.BodyReader c s = Ok r
    /\ (r = Ctx_BodyStream s <-> StreamRequestBody s = true)
    /\ (StreamRequestBody s = false ->
        r = bytes_Reader (BodyRaw s) 0
        /\ (forall bufs,
              Forall (fun n => (0 < n)%nat) bufs ->
              (length (BodyRaw s) < length bufs)%nat ->
              bytes.read_pass bufs (BodyRaw s) 0
              = (BodyRaw s, true, length (BodyRaw s)))
        /\ (forall n,
              bytes.Read (BodyRaw s) (length (BodyRaw s)) n
              = ([], Some io_EOF, length (BodyRaw s)))).
Proof.
  intros Horig. unfold fiberWrapper.BodyReader. rewrite Horig.
  cbn [on_ctx].
  destruct (StreamRequestBody s) eqn:Hmode.
  - exists (Ctx_BodyStream s). split; [reflexivity|].
    split; [tauto | discriminate].
  - exists (bytes.NewReader (BodyRaw s)). split; [reflexivity|]. split.
    + split; [|discriminate].
      unfold Ctx_BodyStream, bytes.NewReader.
      destruct (RequestBodyStream s); discriminate.
    + intros _. split; [reflexivity|]. split.
      * intros bufs Hpos Hlen.
        rewrite read_pass_rest by (try exact Hpos; lia).
        reflexivity.
      * apply Read_at_end.
Qed.

Lemma BodyReader_by_mode_witness :
  let body := [x68; x69; x21]%byte in
  let buffered := sample_ctx "/items" "http" false body ∅ in
  let streamed := sample_ctx "/items" "http" true [] ∅ in
  let c := fiberAdapter.new_wrapper sample_op (ctx_ref 1) [] in
  fiberWrapper.BodyReader c buffered = Ok (bytes_Reader body 0)
  /\ bytes.read_pass [2; 2; 2; 2]%nat body 0 = (body, true, 3%nat)
  /\ fiberWrapper.BodyReader c streamed = Ok (engine_stream 1).
Proof.
  intros body buffered streamed c.
  destruct (BodyReader_by_mode c buffered 1%N eq_refl)
    as (r & Hr & _ & Hbuffered).
  destruct (Hbuffered eq_refl) as (-> & Hpass & _).
  destruct (BodyReader_by_mode c streamed 1%N eq_refl)
    as (r' & Hr' & Hlive & _).
  split; [exact Hr | split].
  - apply (Hpass [2; 2; 2; 2]%nat).
    + repeat constructor.
    + vm_compute. lia.
  - rewrite Hr'. f_equal. now apply Hlive.
Defined.

(** ** The TLS accessor *)

(** C8. [TLS] returns a non-nil [*tls.ConnectionState] if and only if the
    protocol string of the request equals "https", and nil otherwise; the
    state it returns is the zero value, with no handshake field filled. *)
Theorem TLS_placeholder_iff_https (c : fiberWrapper) (s : DefaultCtx) (id : N) :
  orig c = ctx_ref id ->
  exists r,
    fiberWrapper.TLS c s = Ok r
    /\ (r <> None <-> Protocol s = "https")
    /\ (Protocol s <> "https" -> r = None)
    /\ (forall st, r = Some st -> st = tls_ConnectionState_zero).
Proof.
  intros Horig. unfold fiberWrapper.TLS. rewrite Horig. cbn [on_ctx].
  destruct (decide (Protocol s = "https")) as [Hhttps|Hother].
  - exists (Some tls_ConnectionState_zero). split; [reflexivity|].
    split; [split; [tauto | discriminate]|].
    split; [contradiction | congruence].
  - exists None. split; [reflexivity|].
    split; [split; [congruence | contradiction]|].
    split; [reflexivity | discriminate].
Qed.

Lemma TLS_placeholder_iff_https_witness :
  let c := fiberAdapter.new_wrapper sample_op (ctx_ref 1) [] in
  fiberWrapper.TLS c (sample_ctx "/items" "https" false [] ∅)
  = Ok (Some tls_ConnectionState_zero)
  /\ fiberWrapper.TLS c (sample_ctx "/items" "HTTP/1.1" false [] ∅) = Ok None.
Proof.
  intros c. split.
  - destruct (TLS_placeholder_iff_https c
                (sample_ctx "/items" "https" false [] ∅) 1%N eq_refl)
      as (r & -> & Hiff & _ & Hzero).
    destruct r as [st|].
    + now rewrite (Hzero st eq_refl).
    + exfalso. apply (proj2 Hiff); reflexivity.
  - destruct (TLS_placeholder_iff_https c
                (sample_ctx "/items" "HTTP/1.1" false [] ∅) 1%N eq_refl)
      as (r & -> & _ & Hnil & _).
    rewrite Hnil; [reflexivity | discriminate].
Defined.

(** ** The ServeHTTP bridge *)

Lemma filter_adds_to_values k k' (vs : list string) :
  List.filter (adds_to k) (map (ev_HeaderAdd k') vs)
  = if decide (k' = k) then map (ev_HeaderAdd k) vs else [].
Proof.
  induction vs as [|v vs IH]; cbn [map List.filter adds_to].
  - now destruct (decide (k' = k)).
  - rewrite IH. destruct (decide (k' = k)) as [->|Hne].
    + now rewrite bool_decide_eq_true_2.
    + now rewrite bool_decide_eq_false_2.
Qed.

Lemma filter_adds_to_absent k (entries : list (string * list string)) :
  ~ In k (map fst entries) ->
  List.filter (adds_to k)
    (flat_map (fun kv => map (ev_HeaderAdd (fst kv)) (snd kv)) entries) = [].
Proof.
  induction entries as [|[k' vs] entries IH]; intros Hk; [reflexivity|].
  cbn [flat_map fst snd]. rewrite List.filter_app, filter_adds_to_values.
  destruct (decide (k' = k)) as [->|_].
  - exfalso. apply Hk. now left.
  - apply IH. intros Hin. apply Hk. now right.
Qed.

(** With one entry per name, the adds for a name are its values in order. *)
Lemma filter_adds_to_present k vs (entries : list (string * list string)) :
  List.NoDup (map fst entries) -> In (k, vs) entries ->
  List.filter (adds_to k)
    (flat_map (fun kv => map (ev_HeaderAdd (fst kv)) (snd kv)) entries)
  = map (ev_HeaderAdd k) vs.
Proof.
  induction entries as [|[k' vs'] entries IH]; intros Hnd Hin; [destruct Hin|].
  cbn [map fst] in Hnd. inversion Hnd as [|? ? Hfresh Hnd']; subst.
  cbn [flat_map fst snd]. rewrite List.filter_app, filter_adds_to_values.
  destruct Hin as [Heq|Hin].
  - inversion Heq; subst.
    rewrite decide_True by reflexivity.
    rewrite filter_adds_to_absent by exact Hfresh. apply app_nil_r.
  - destruct (decide (k' = k)) as [->|_].
    + exfalso. apply Hfresh. apply (in_map fst) in Hin. exact Hin.
    + now apply IH.
Qed.

Lemma copy_header_only_adds range (h : http_Header) :
  Forall (fun e => exists k v, e = ev_HeaderAdd k v)
         (fiberAdapter.copy_header range h).
Proof.
  unfold fiberAdapter.copy_header.
  induction (range h) as [|[k vs] entries IH]; [constructor|].
  cbn [flat_map fst snd]. apply Forall_app. split; [|exact IH].
  induction vs as [|v vs IHvs]; constructor; eauto.
Qed.

Lemma copy_header_per_name range (h : http_Header) k :
  (forall m, Permutation (range m) (map_to_list m)) ->
  List.filter (adds_to k) (fiberAdapter.copy_header range h)
  = map (ev_HeaderAdd k) (default [] (h !! k)).
Proof.
  intros Hrange. unfold fiberAdapter.copy_header.
  assert (Hnd : List.NoDup (map fst (range h))).
  { apply NoDup_ListNoDup. rewrite (Hrange h).
    apply (NoDup_fst_map_to_list h). }
  destruct (h !! k) as [vs|] eqn:Hk; cbn [default].
  - apply filter_adds_to_present; [exact Hnd|].
    apply list_elem_of_In. rewrite (Hrange h).
    now apply elem_of_map_to_list.
  - apply filter_adds_to_absent. intros Hin.
    apply in_map_iff in Hin as ([k' vs] & Hfst & Hin). cbn in Hfst. subst k'.
    apply list_elem_of_In in Hin. rewrite (Hrange h) in Hin.
    apply elem_of_map_to_list in Hin. congruence.
Qed.

(** C7. Whatever order [range] visits the response headers in: when the
    in-process run returns a response and a nil error, [ServeHTTP] first
    adds the response headers to the writer's header map, for every name
    all of its values in their order and nothing else, then calls
    [WriteHeader] with the response's status code, then writes the body
    chunks in order (and closes the body on return). When the run returns a
    non-nil error, [ServeHTTP] panics with that error and makes no call on
    the writer. *)
Theorem ServeHTTP_copies_or_panics
    (range : http_Header -> list (string * list string))
    (a : fiberAdapter) (r : http_Request) :
  (forall m, Permutation (range m) (map_to_list m)) ->
  (forall resp chunks,
      Test (tester a) r = (Some resp, None) ->
      Body resp = Some chunks ->
      exists copied,
        fiberAdapter.ServeHTTP range a r
        = (copied ++ [ev_WriteHeader (StatusCode resp)]
             ++ map ev_Write chunks ++ [ev_BodyClose], Ok tt)
        /\ Forall (fun e => exists k v, e = ev_HeaderAdd k v) copied
        /\ (forall k, List.filter (adds_to k) copied
                      = map (ev_HeaderAdd k) (default [] (Header resp !! k))))
  /\ (forall resp e,
        Test (tester a) r = (resp, Some e) ->
        snd (fiberAdapter.ServeHTTP range a r) = Panic (panic_error e)
        /\ List.filter on_writer (fst (fiberAdapter.ServeHTTP range a r)) = []).
Proof.
  intros Hrange. split.
  - intros resp chunks Htest Hbody.
    exists (fiberAdapter.copy_header range (Header resp)).
    split; [|split].
    + unfold fiberAdapter.ServeHTTP. rewrite Htest, Hbody. reflexivity.
    + apply copy_header_only_adds.
    + intros k. now apply copy_header_per_name.
  - intros resp e Htest. unfold fiberAdapter.ServeHTTP. rewrite Htest.
    destruct resp as [rs|]; [destruct (Body rs)|]; split; reflexivity.
Qed.

Lemma ServeHTTP_copies_or_panics_witness :
  let a := {| tester := sample_app; router := [] |} in
  let bad := {| tester := failing_app; router := [] |} in
  let served := fiberAdapter.ServeHTTP map_to_list a sample_request in
  snd served = Ok tt
  /\ List.filter (adds_to "X-Test") (fst served)
     = [ev_HeaderAdd "X-Test" "a"; ev_HeaderAdd "X-Test" "b"]
  /\ List.filter (fun e => negb (adds_to "X-Test" e
                                 || adds_to "Content-Type" e))
       (fst served)
     = [ev_WriteHeader 200; ev_Write [x6f; x6b]%byte; ev_BodyClose]
  /\ snd (fiberAdapter.ServeHTTP map_to_list bad sample_request)
     = Panic (panic_error (errors_New "test: timeout")).
Proof.
  intros a bad served.
  destruct (ServeHTTP_copies_or_panics map_to_list a sample_request
              (fun m => Permutation_refl (map_to_list m)))
    as (Hcopy & _).
  destruct (Hcopy sample_response [[x6f; x6b]%byte] eq_refl eq_refl)
    as (copied & Hserved & _ & Hnames).
  destruct (ServeHTTP_copies_or_panics map_to_list bad sample_request
              (fun m => Permutation_refl (map_to_list m)))
    as (_ & Hpanic).
  split; [|split; [|split]].
  - unfold served. now rewrite Hserved.
  - unfold served. rewrite Hserved. cbn [fst].
    rewrite List.filter_app, (Hnames "X-Test"). reflexivity.
  - vm_compute. reflexivity.
  - apply (Hpanic None (errors_New "test: timeout") eq_refl).
Defined.

(** ** The route closure *)

(** C9. The handler that [Handle] installs in the routing table never
    returns a non-nil error to the engine, whatever the operation handler
    does: every invocation in which the operation handler returns ends with
    the closure returning nil, and the only other outcome is a panic, raised
    by the operation handler (or by the call on a nil native context), which
    is not a returned error. *)
Theorem route_closure_returns_nil
    (visit : gmap any any -> list (any * any)) (a : fiberAdapter)
    (op : huma_Operation) (handler : huma_Handler)
    (c : fiber_Ctx) (s : DefaultCtx) :
  let installed := fiberAdapter.route_closure visit op handler in
  let hc := humafiber_Context
              (fiberAdapter.new_wrapper op c (fiberAdapter.snapshot visit s)) in
  last (map route_handler (router (fiberAdapter.Handle visit a op handler)))
  = Some installed
  /\ (forall err s', installed c s <> Ok (Some err, s'))
  /\ (forall s', c <> nil_Ctx -> handler hc s = Ok s' ->
                 installed c s = Ok (None, s'))
  /\ (forall p, installed c s = Panic p ->
                c = nil_Ctx \/ handler hc s = Panic p).
Proof.
  intros installed hc. split; [|split; [|split]].
  - unfold fiberAdapter.Handle, router_Add. cbn [router].
    rewrite map_app. cbn [map route_handler]. apply last_snoc.
  - intros err s'. unfold installed, fiberAdapter.route_closure.
    destruct c as [|id]; [discriminate|]. cbn [on_ctx].
    fold hc. destruct (handler hc s) as [s1|p]; cbn [bind]; congruence.
  - intros s' Hc Hret. unfold installed, fiberAdapter.route_closure.
    destruct c as [|id]; [contradiction|]. cbn [on_ctx].
    fold hc. rewrite Hret. reflexivity.
  - intros p. unfold installed, fiberAdapter.route_closure.
    destruct c as [|id]; [now left|]. cbn [on_ctx].
    fold hc. destruct (handler hc s) as [s1|q]; cbn [bind];
      [discriminate | intros [= ->]; now right].
Qed.

Lemma route_closure_returns_nil_witness :
  let a := {| tester := sample_app; router := [] |} in
  let s := sample_ctx "/items/42" "http" false [] ∅ in
  let handler : huma_Handler :=
    fun hc s =>
      match hc with
      | humafiber_Context w =>
          ws <- fiberWrapper.SetStatus 500 w s ;; Ok (snd ws)
      | _ => Ok s
      end in
  fiberAdapter.route_closure map_to_list sample_op handler (ctx_ref 1) s
  = Ok (None, Ctx_Status 500 s).
Proof.
  intros a s handler.
  destruct (route_closure_returns_nil map_to_list a sample_op handler
              (ctx_ref 1) s) as (_ & _ & Hreturns & _).
  apply Hreturns; [discriminate | reflexivity].
Defined.

(** C10. The wrapper that the route closure builds and hands to the
    operation handler has status 0 before any [SetStatus] call: the literal
    leaves the [status] field out. That is neither the engine's default of
    200 nor anything read from the native response. *)
Theorem Status_of_new_wrapper
    (visit : gmap any any -> list (any * any)) (op : huma_Operation)
    (handler : huma_Handler) (c : fiber_Ctx) (id : N) (s : DefaultCtx) :
  c = ctx_ref id ->
  let w := fiberAdapter.new_wrapper op c (fiberAdapter.snapshot visit s) in
  fiberAdapter.route_closure visit op handler c s
  = (s' <- handler (humafiber_Context w) s ;; Ok (None, s'))
  /\ fiberWrapper.Status w = 0
  /\ fiberWrapper.Status w <> 200.
Proof.
  intros Hc w. split; [|split].
  - now apply (route_closure_dispatch visit op handler c id s).
  - reflexivity.
  - discriminate.
Qed.

Lemma Status_of_new_wrapper_witness :
  let s := sample_ctx "/items/42" "http" false [] ∅ in
  ResponseStatusCode s = 200
  /\ fiberWrapper.Status
       (fiberAdapter.new_wrapper sample_op (ctx_ref 1)
          (fiberAdapter.snapshot map_to_list s)) = 0.
Proof.
  intros s. split; [reflexivity|].
  apply (Status_of_new_wrapper map_to_list sample_op (fun _ s => Ok s)
           (ctx_ref 1) 1%N s eq_refl).
Defined.

(** A panic raised while the operation handler runs, here by [URL] on a
    request URI that was set to a string the parser rejects, leaves the
    closure as a panic. *)
Lemma route_closure_passes_panic
    (other : string -> option url_URL * option error) :
  let s := Request_SetRequestURI "/%zz"
             (sample_ctx "/items/42" "http" false [] ∅) in
  let handler : huma_Handler :=
    fun hc s =>
      match hc with
      | humafiber_Context w =>
          _ <- fiberWrapper.URL (url_Parse_origin_form other) w s ;; Ok s
      | _ => Ok s
      end in
  fiberAdapter.route_closure Fiber_Locals sample_op handler (ctx_ref 1) s
  = Panic nil_dereference.
Proof. reflexivity. Qed.

(** * Further properties *)

(** ** Pairs with the same key *)

(** X2. When the list of pairs holds a key more than once, the earliest
    pair decides: a lookup returns the value of the first pair with the key,
    whatever pairs follow it, as long as the embedded context has nothing
    for the key. *)
Theorem Value_first_pair_wins
    (before after : list contextWrapperValue) (p : contextWrapperValue)
    (embedded : context_Context) :
  (forall q, In q before -> Key q <> Key p) ->
  embedded (Key p) = any_nil ->
  contextWrapper.Value
    {| values := before ++ p :: after; Context := embedded |} (Key p)
  = Value p.
Proof.
  intros Hbefore Hnil.
  rewrite Value_embedded_miss by exact Hnil.
  now apply scan_first.
Qed.

Lemma Value_first_pair_wins_witness :
  contextWrapper.Value
    {| values := [ {| Key := any_string "a"; Value := any_int 0 |};
                   {| Key := any_string "k"; Value := any_int 1 |};
                   {| Key := any_string "k"; Value := any_int 2 |} ];
       Context := context_Background |} (any_string "k")
  = any_int 1.
Proof.
  apply (Value_first_pair_wins
           [ {| Key := any_string "a"; Value := any_int 0 |} ]
           [ {| Key := any_string "k"; Value := any_int 2 |} ]
           {| Key := any_string "k"; Value := any_int 1 |}
           context_Background).
  - intros q [<-|[]]. discriminate.
  - reflexivity.
Defined.

(** ** The registered paths *)

Lemma has_brace_colon_params (template : string) :
  has_brace (colon_params template) = false.
Proof.
  induction template as [|b rest IH]; [reflexivity|].
  rewrite colon_params_cons.
  destruct (bool_decide (b = "{"%char)) eqn:Hopen.
  - rewrite has_brace_cons, IH. reflexivity.
  - destruct (bool_decide (b = "}"%char)) eqn:Hclose; [exact IH|].
    now rewrite has_brace_cons, Hopen, Hclose, IH.
Qed.

(** X3. The path that [Handle] registers never holds a brace, and the
    rewrite leaves such a path as it is: registering an already rewritten
    template registers the same path again. *)
Theorem Handle_path_has_no_brace
    (visit : gmap any any -> list (any * any)) (a : fiberAdapter)
    (op : huma_Operation) (handler : huma_Handler) :
  exists r,
    last (router (fiberAdapter.Handle visit a op handler)) = Some r
    /\ route_methods r = [Method op]
    /\ has_brace (route_path r) = false
    /\ strings_ReplaceAll (strings_ReplaceAll (route_path r) "{" ":") "}" ""
       = route_path r.
Proof.
  eexists. split.
  - unfold fiberAdapter.Handle, router_Add. cbn [router]. apply last_snoc.
  - cbn [route_methods route_path]. split; [reflexivity|].
    rewrite !ReplaceAll_colon_params. split.
    + apply has_brace_colon_params.
    + apply colon_params_no_brace, has_brace_colon_params.
Qed.

(** X4. The two [ReplaceAll] calls rewrite byte by byte and match no
    braces: the rewrite of a concatenation is the concatenation of the
    rewrites, a "{" with no closing brace still becomes ":", and a "}" with
    no opening brace is still dropped. *)
Theorem path_rewrite_is_bytewise (s t : string) :
  let colon p := strings_ReplaceAll (strings_ReplaceAll p "{" ":") "}" "" in
  colon (s +:+ t) = colon s +:+ colon t
  /\ colon (s +:+ "{" +:+ t) = colon s +:+ ":" +:+ colon t
  /\ colon (s +:+ "}" +:+ t) = colon s +:+ colon t.
Proof.
  cbv beta zeta. rewrite !ReplaceAll_colon_params, !colon_params_app.
  repeat split.
Qed.


(** ** Closing the response body *)

Lemma copy_header_on_writer range (h : http_Header) :
  List.filter (fun e => negb (on_writer e)) (fiberAdapter.copy_header range h)
  = [].
Proof.
  pose proof (copy_header_only_adds range h) as Hadds.
  induction Hadds as [|e es (k & v & ->) _ IH]; [reflexivity | exact IH].
Qed.

Lemma writes_on_writer (chunks : list (list byte)) :
  List.filter (fun e => negb (on_writer e)) (map ev_Write chunks) = [].
Proof. induction chunks as [|b chunks IH]; [reflexivity | exact IH]. Qed.

(** X6. The deferred close: whenever the in-process run hands back a
    response with a body, with or without an error, [ServeHTTP] closes that
    body exactly once and as the last thing it does, also when it panics;
    when there is no response or no body, nothing is closed. *)
Theorem ServeHTTP_closes_body
    (range : http_Header -> list (string * list string))
    (a : fiberAdapter) (r : http_Request) :
  let trace := fst (fiberAdapter.ServeHTTP range a r) in
  let closes := List.filter (fun e => negb (on_writer e)) trace in
  match fst (Test (tester a) r) with
  | Some rs =>
      match Body rs with
      | Some _ => closes = [ev_BodyClose] /\ last trace = Some ev_BodyClose
      | None => closes = []
      end
  | None => closes = []
  end.
Proof.
  cbv zeta. unfold fiberAdapter.ServeHTTP.
  destruct (Test (tester a) r) as [[rs|] [e|]]; cbn [fst]; try reflexivity.
  - destruct (Body rs); cbn [fst]; [split|]; reflexivity.
  - destruct (Body rs) as [chunks|]; cbn [fst].
    + split.
      * rewrite !List.filter_app, copy_header_on_writer, writes_on_writer.
        reflexivity.
      * rewrite !app_assoc. apply last_snoc.
    + rewrite !List.filter_app, copy_header_on_writer. reflexivity.
Qed.

(** ** Runs of SetStatus *)

Lemma SetStatus_all_shape codes (c : fiberWrapper) (s : DefaultCtx) id :
  orig c = ctx_ref id ->
  exists st rs,
    fiberWrapper.SetStatus_all codes c s
    = Ok ({| op := op c; status := st; orig := orig c; ctx := ctx c |},
          {| RequestURI := RequestURI s; Protocol := Protocol s;
             StreamRequestBody := StreamRequestBody s;
             RequestBodyStream := RequestBodyStream s;
             BodyRaw := BodyRaw s; UserValues := UserValues s;
             ResponseStatusCode := rs |}).
Proof.
  revert c s. induction codes as [|code codes IH]; intros c s Horig.
  - exists (status c), (ResponseStatusCode s). now destruct c, s.
  - destruct c as [o st0 og cx]. cbn [orig] in Horig. subst og.
    cbn [fiberWrapper.SetStatus_all]. unfold fiberWrapper.SetStatus.
    cbn [orig op ctx on_ctx bind fst snd].
    destruct (IH {| op := o; status := code; orig := ctx_ref id; ctx := cx |}
                 (Ctx_Status code s) eq_refl) as (st & rs & ->).
    exists st, rs. reflexivity.
Qed.

(** X7. Only the last call of a run of [SetStatus] calls matters: the run
    leaves the wrapper and the native context exactly as the single call
    [SetStatus(code)] does. The wrapper keeps its operation, its native
    context and its context; of the native context only the status of the
    response changes. *)
Theorem SetStatus_run_is_last_call
    (codes : list Z) (code : Z) (c : fiberWrapper) (s : DefaultCtx) (id : N) :
  orig c = ctx_ref id ->
  fiberWrapper.SetStatus_all (codes ++ [code]) c s
  = fiberWrapper.SetStatus code c s
  /\ fiberWrapper.SetStatus code c s
     = Ok ({| op := op c; status := code; orig := orig c; ctx := ctx c |},
           Ctx_Status code s).
Proof.
  intros Horig. split.
  - destruct (SetStatus_all_shape codes c s id Horig) as (st & rs & Hrun).
    rewrite SetStatus_all_app, Hrun. cbn [bind fst snd].
    cbn [fiberWrapper.SetStatus_all]. unfold fiberWrapper.SetStatus.
    cbn [orig op ctx]. rewrite Horig. reflexivity.
  - unfold fiberWrapper.SetStatus. rewrite Horig. reflexivity.
Qed.

Lemma SetStatus_run_is_last_call_witness :
  let s := sample_ctx "/items/42" "https" false [] ∅ in
  let c := fiberAdapter.new_wrapper sample_op (ctx_ref 1) [] in
  fiberWrapper.SetStatus_all ([204; 204; 500] ++ [404]) c s
  = fiberWrapper.SetStatus 404 c s.
Proof.
  intros s c.
  apply (SetStatus_run_is_last_call [204; 204; 500] 404 c s 1%N eq_refl).
Defined.

(** ** TLS and the protocol version *)

(** X8. [TLS] and [Version] read the same protocol string: [TLS] is non-nil
    exactly when [Version().Proto] is "https". So whenever the protocol
    string is an HTTP version such as "HTTP/1.1", [TLS] is nil. [Version]
    fills in [Proto] only; [ProtoMajor] and [ProtoMinor] stay zero. *)
Theorem TLS_follows_Version_Proto
    (c : fiberWrapper) (s : DefaultCtx) (id : N) :
  orig c = ctx_ref id ->
  exists v t,
    fiberWrapper.Version c s = Ok v
    /\ fiberWrapper.TLS c s = Ok t
    /\ Proto v = Protocol s
    /\ ProtoMajor v = 0 /\ ProtoMinor v = 0
    /\ (t <> None <-> Proto v = "https")
    /\ (String.prefix "HTTP/" (Proto v) = true -> t = None).
Proof.
  intros Horig. unfold fiberWrapper.Version, fiberWrapper.TLS.
  rewrite Horig. cbn [on_ctx].
  destruct (decide (Protocol s = "https")) as [Hhttps|Hother];
    eexists _, _; repeat (split; [reflexivity|]); cbn [Proto].
  - split; [split; [tauto | discriminate]|].
    rewrite Hhttps. discriminate.
  - split; [split; [congruence | contradiction] | reflexivity].
Qed.

Lemma TLS_follows_Version_Proto_witness :
  let c := fiberAdapter.new_wrapper sample_op (ctx_ref 1) [] in
  let s := sample_ctx "/items" "HTTP/1.1" false [] ∅ in
  fiberWrapper.Version c s
  = Ok {| Proto := "HTTP/1.1"; ProtoMajor := 0; ProtoMinor := 0 |}
  /\ fiberWrapper.TLS c s = Ok None.
Proof.
  intros c s.
  destruct (TLS_follows_Version_Proto c s 1%N eq_refl)
    as (v & t & Hv & Ht & Hproto & Hmajor & Hminor & _ & Hnil).
  rewrite Hv, Ht. destruct v as [proto major minor].
  cbn [Proto ProtoMajor ProtoMinor] in *. subst proto major minor.
  split; [reflexivity|]. now rewrite Hnil.
Defined.

(** ** Reading the buffered body *)

Lemma take_length_take {A : Type} (l : list A) (n : nat) :
  take (length (take n l)) l = take n l.
Proof.
  rewrite length_take. destruct (decide (n <= length l)%nat).
  - now rewrite Nat.min_l by lia.
  - rewrite Nat.min_r by lia. now rewrite !take_ge by lia.
Qed.

Lemma read_pass_slice (bufs : list nat) (s : list byte) (i : nat)
    out eof i' :
  (i <= length s)%nat ->
  bytes.read_pass bufs s i = (out, eof, i') ->
  (i <= i' <= length s)%nat
  /\ out = take (i' - i) (drop i s)
  /\ (eof = true -> i' = length s).
Proof.
  revert i out eof i'.
  induction bufs as [|n bufs IH]; intros i out eof i' Hi Hpass;
    cbn [bytes.read_pass] in Hpass.
  - inversion Hpass; subst. rewrite Nat.sub_diag.
    split; [lia | split; [reflexivity | discriminate]].
  - unfold bytes.Read in Hpass.
    destruct (decide (length s <= i)%nat) as [Hend|Hmore].
    + inversion Hpass; subst. rewrite Nat.sub_diag.
      split; [lia | split; [reflexivity | lia]].
    + destruct (bytes.read_pass bufs s (i + length (take n (drop i s))))
        as [[more eof1] i1] eqn:Hrest.
      inversion Hpass; subst.
      assert (Hk : (length (take n (drop i s)) <= length s - i)%nat).
      { rewrite length_take, length_drop. lia. }
      assert (Hi1 : (i + length (take n (drop i s)) <= length s)%nat) by lia.
      destruct (IH _ _ _ _ Hi1 Hrest) as (Hbound & Hmoreq & Heof).
      split; [lia | split; [|exact Heof]].
      rewrite Hmoreq, <- drop_drop.
      transitivity
        (take (length (take n (drop i s))) (drop i s)
         ++ take (i' - (i + length (take n (drop i s))))
              (drop (length (take n (drop i s))) (drop i s))).
      * f_equal. symmetry. apply take_length_take.
      * rewrite take_take_drop. f_equal. lia.
Qed.

(** X9. In buffered mode, whatever buffers a consumer reads with (empty
    ones included) and however early it stops, the bytes it gets from the
    reader that [BodyReader] returns are a prefix of the raw body, with no
    byte skipped or repeated; once a read has reported [io.EOF], they are
    the whole raw body. *)
Theorem BodyReader_reads_prefix
    (c : fiberWrapper) (s : DefaultCtx) (id : N) :
  orig c = ctx_ref id ->
  StreamRequestBody s = false ->
  exists body,
    fiberWrapper.BodyReader c s = Ok (bytes_Reader body 0)
    /\ forall bufs out eof i',
        bytes.read_pass bufs body 0 = (out, eof, i') ->
        out = take i' (BodyRaw s)
        /\ (i' <= length (BodyRaw s))%nat
        /\ (eof = true -> out = BodyRaw s).
Proof.
  intros Horig Hmode. exists (BodyRaw s). split.
  - unfold fiberWrapper.BodyReader. rewrite Horig, Hmode. reflexivity.
  - intros bufs out eof i' Hpass.
    destruct (read_pass_slice bufs (BodyRaw s) 0 out eof i' (Nat.le_0_l _) Hpass)
      as (Hbound & Hout & Heof).
    rewrite Nat.sub_0_r in Hout. cbn [drop] in Hout.
    split; [exact Hout | split; [lia|]].
    intros Heq. rewrite Hout, (Heof Heq). apply firstn_all.
Qed.

Lemma BodyReader_reads_prefix_witness :
  let body := [x68; x69; x21]%byte in
  let s := sample_ctx "/items" "http" false body ∅ in
  let c := fiberAdapter.new_wrapper sample_op (ctx_ref 1) [] in
  fst (fst (bytes.read_pass [0; 2]%nat body 0)) = [x68; x69]%byte.
Proof.
  intros body s c.
  destruct (BodyReader_reads_prefix c s 1%N eq_refl eq_refl)
    as (body' & Hreader & Hprefix).
  assert (body' = body) as -> by (now inversion Hreader).
  destruct (bytes.read_pass [0; 2]%nat body 0) as [[out eof] i'] eqn:Hpass.
  destruct (Hprefix _ _ _ _ Hpass) as (-> & _ & _).
  vm_compute in Hpass. inversion Hpass; subst. reflexivity.
Defined.
